(** * Maximum flow from St. Petersburg to Moscow as a linear program

    A shallow embedding of the notebook [StPetersburgToMoscow.ipynb]: the
    literal lists it defines, the keyword arguments it passes to
    [scipy.optimize.linprog], the result it records, and the table it prints.

    Numbers are exact rationals ([Q]).  Every literal of the notebook is an
    integer and every recorded float is integral, so nothing is rounded; the
    comparison on computed values is [Qeq] ([==]). *)

From Stdlib Require Import String Ascii List Bool Arith ZArith QArith Lqa Lia.
Import ListNotations.
Open Scope Q_scope.

(** ** Vectors and matrices as numpy has them: rows of a 2-D array are lists *)

Module LinAlg.

Definition vec := list Q.
Definition matrix := list vec.

(** [np.zeros(n)] *)
Definition zeros (n : nat) : vec := repeat 0 n.

(** [np.arange(n)] *)
Definition arange (n : nat) : list nat := seq 0 n.

(** [np.eye(n)]: ones on the diagonal, zeros elsewhere. *)
Definition eye (n : nat) : matrix :=
  map (fun i => map (fun j => if Nat.eqb i j then 1 else 0) (seq 0 n)) (seq 0 n).

(** Inner product of a row with a vector. *)
Fixpoint dot (u v : vec) : Q :=
  match u, v with
  | a :: u', b :: v' => a * b + dot u' v'
  | _, _ => 0
  end.

(** [M @ x] *)
Definition mat_vec (M : matrix) (x : vec) : vec := map (fun r => dot r x) M.

(** Component-wise scaling and sum, used for linear combinations of rows. *)
Definition scale (k : Q) (u : vec) : vec := map (Qmult k) u.

Fixpoint vadd (u v : vec) : vec :=
  match u, v with
  | a :: u', b :: v' => (a + b) :: vadd u' v'
  | _, _ => []
  end.

(** [lam @ M] for a matrix whose rows have [n] columns. *)
Fixpoint vec_mat (n : nat) (lam : vec) (M : matrix) : vec :=
  match lam, M with
  | k :: lam', r :: M' => vadd (scale k r) (vec_mat n lam' M')
  | _, _ => zeros n
  end.

(** Two lists related position by position (and of the same length). *)
Fixpoint pointwise {A B : Type} (R : A -> B -> Prop) (l : list A) (l' : list B) : Prop :=
  match l, l' with
  | [], [] => True
  | a :: t, b :: t' => R a b /\ pointwise R t t'
  | _, _ => False
  end.

Fixpoint pointwiseb {A B : Type} (r : A -> B -> bool) (l : list A) (l' : list B) : bool :=
  match l, l' with
  | [], [] => true
  | a :: t, b :: t' => r a b && pointwiseb r t t'
  | _, _ => false
  end.

Definition vec_le : vec -> vec -> Prop := pointwise Qle.
Definition vec_eq : vec -> vec -> Prop := pointwise Qeq.
Definition vec_leb : vec -> vec -> bool := pointwiseb Qle_bool.
Definition vec_eqb : vec -> vec -> bool := pointwiseb Qeq_bool.

(** A matrix has full row rank when only the zero combination of its rows
    vanishes. *)
Definition full_row_rank (n : nat) (M : matrix) : Prop :=
  forall lam : vec,
    length lam = length M ->
    vec_eq (vec_mat n lam M) (zeros n) ->
    Forall (fun k => k == 0) lam.

(** In-place style update of one component; out of range nothing changes. *)
Fixpoint set_nth (i : nat) (v : Q) (u : vec) {struct u} : vec :=
  match u, i with
  | [], _ => []
  | _ :: t, O => v :: t
  | a :: t, S j => a :: set_nth j v t
  end.

End LinAlg.

Import LinAlg.

(** ** The notebook's literals *)

Module Notebook.

(** In [4]. *)
Definition labs : list string :=
  ["e_sA"; "e_sB"; "e_AC"; "e_AD"; "e_BC"; "e_BE"; "e_CE"; "e_CG"; "e_DI";
   "e_EF"; "e_EG"; "e_FH"; "e_GH"; "e_Ht"; "e_GI"; "e_IJ"; "e_Jt"]%string.

Definition nums : list nat := arange 17.

(** In [5]. *)
Definition obj : vec :=
  [0; 0; 0; 0; 0; 0; 0; 0; 0; 0; 0; 0; 0; -1; 0; 0; -1].

(** In [6]. *)
Definition lhs_capacity : matrix := eye 17.

Definition rhs_capacity : vec :=
  [3; 3; 4; 2; 2; 2; 3; 4; 5; 3; 4; 4; 3; 5; 3; 3; 1].

(** In [7]: [np.column_stack([nums, labs, rhs_capacity])].  numpy refuses
    columns of different lengths; the text rendering of the numbers is not
    modelled, a row keeps the index, the label and the number. *)
Fixpoint column_stack3 (ns : list nat) (ls : list string) (cs : vec)
  : option (list (nat * string * Q)) :=
  match ns, ls, cs with
  | [], [], [] => Some []
  | n :: ns', l :: ls', q :: cs' =>
      match column_stack3 ns' ls' cs' with
      | Some rows => Some ((n, l, q) :: rows)
      | None => None
      end
  | _, _, _ => None
  end.

Definition labeled_capacity : option (list (nat * string * Q)) :=
  column_stack3 nums labs rhs_capacity.

(** In [8].  One row per node, in the order of the row comments:
    start, A, B, C, D, E, F, G, H, I, J, target. *)
Definition lhs_balance : matrix :=
  [[1; 1; 0; 0; 0; 0; 0; 0; 0; 0; 0; 0; 0; -1; 0; 0; -1];
   [-1; 0; 1; 1; 0; 0; 0; 0; 0; 0; 0; 0; 0; 0; 0; 0; 0];
   [0; -1; 0; 0; 1; 1; 0; 0; 0; 0; 0; 0; 0; 0; 0; 0; 0];
   [0; 0; -1; 0; -1; 0; 1; 1; 0; 0; 0; 0; 0; 0; 0; 0; 0];
   [0; 0; 0; -1; 0; 0; 0; 0; 1; 0; 0; 0; 0; 0; 0; 0; 0];
   [0; 0; 0; 0; 0; -1; -1; 0; 0; 1; 1; 0; 0; 0; 0; 0; 0];
   [0; 0; 0; 0; 0; 0; 0; 0; 0; -1; 0; 1; 0; 0; 0; 0; 0];
   [0; 0; 0; 0; 0; 0; 0; -1; 0; 0; -1; 0; 1; 0; 1; 0; 0];
   [0; 0; 0; 0; 0; 0; 0; 0; 0; 0; 0; -1; -1; 1; 0; 0; 0];
   [0; 0; 0; 0; 0; 0; 0; 0; -1; 0; 0; 0; 0; 0; -1; 1; 0];
   [0; 0; 0; 0; 0; 0; 0; 0; 0; 0; 0; 0; 0; 0; 0; -1; 1];
   [0; 0; 0; 0; 0; 0; 0; 0; 0; 0; 0; 0; 0; 0; 0; 0; 0]].

Definition rhs_balance : vec := zeros 12.

(** In [9].  A bound is a pair (lower, upper); [None] stands for an absent
    bound, which is how Python's [None] and [float("inf")] both behave. *)
Definition bound : Type := option Q * option Q.

Definition bnd : list bound := repeat (Some 0, None) 12.

End Notebook.

Import Notebook.

(** ** The network the labels describe *)

Module Network.

(** A label [e_XY] names the edge from node [X] to node [Y]. *)
Definition edge_src (lab : string) : option ascii := String.get 2 lab.
Definition edge_dst (lab : string) : option ascii := String.get 3 lab.

Definition node_eqb (n : ascii) (o : option ascii) : bool :=
  match o with
  | Some m => Ascii.eqb n m
  | None => false
  end.

Definition source : ascii := "s"%char.
Definition sink : ascii := "t"%char.

Definition internal_nodes : list ascii :=
  ["A"; "B"; "C"; "D"; "E"; "F"; "G"; "H"; "I"; "J"]%char.

(** Row order of [lhs_balance]. *)
Definition nodes : list ascii := source :: internal_nodes ++ [sink].

(** Total flow on the edges of [ls] selected by [p], read from [x]. *)
Fixpoint flow_on (p : string -> bool) (ls : list string) (x : vec) : Q :=
  match ls, x with
  | l :: ls', q :: x' => (if p l then q else 0) + flow_on p ls' x'
  | _, _ => 0
  end.

Definition inflow (n : ascii) (x : vec) : Q :=
  flow_on (fun l => node_eqb n (edge_dst l)) labs x.

Definition outflow (n : ascii) (x : vec) : Q :=
  flow_on (fun l => node_eqb n (edge_src l)) labs x.

(** Every label names two of the twelve nodes. *)
Definition well_labelled (ls : list string) : bool :=
  forallb (fun l =>
             match edge_src l, edge_dst l with
             | Some u, Some w =>
                 existsb (Ascii.eqb u) nodes && existsb (Ascii.eqb w) nodes
             | _, _ => false
             end) ls.

(** Column indices of the edges selected by [p]. *)
Definition columns_of (p : string -> bool) : list nat :=
  map fst (filter (fun il => p (snd il)) (combine (seq 0 (length labs)) labs)).

End Network.

Import Network.

(** ** The call to [linprog] and what it returns *)

Module Solver.

(** The keyword arguments of [scipy.optimize.linprog] that the notebook uses,
    and [bounds], which it leaves out. *)
Record linprog_args : Type := {
  c : vec;
  A_ub : matrix;
  b_ub : vec;
  A_eq : matrix;
  b_eq : vec;
  bounds : option (list bound);
  method : string
}.

(** [linprog] documents that without [bounds] every variable gets [(0, None)]:
    all decision variables are non-negative and have no upper bound. *)
Definition default_bound : bound := (Some 0, None).

Definition effective_bounds (a : linprog_args) : list bound :=
  match bounds a with
  | Some bs => bs
  | None => repeat default_bound (length (c a))
  end.

Definition in_bound (b : bound) (v : Q) : Prop :=
  match fst b with Some lo => lo <= v | None => True end /\
  match snd b with Some hi => v <= hi | None => True end.

Definition in_boundb (b : bound) (v : Q) : bool :=
  match fst b with Some lo => Qle_bool lo v | None => true end &&
  match snd b with Some hi => Qle_bool v hi | None => true end.

(** The feasible set of the linear program:
    [A_ub @ x <= b_ub], [A_eq @ x == b_eq], [lb <= x <= ub]. *)
Definition feasible (a : linprog_args) (x : vec) : Prop :=
  length x = length (c a) /\
  vec_le (mat_vec (A_ub a) x) (b_ub a) /\
  vec_eq (mat_vec (A_eq a) x) (b_eq a) /\
  pointwise in_bound (effective_bounds a) x.

Definition feasibleb (a : linprog_args) (x : vec) : bool :=
  Nat.eqb (length x) (length (c a)) &&
  vec_leb (mat_vec (A_ub a) x) (b_ub a) &&
  vec_eqb (mat_vec (A_eq a) x) (b_eq a) &&
  pointwiseb in_boundb (effective_bounds a) x.

(** [c @ x], the quantity [linprog] minimises. *)
Definition objective (a : linprog_args) (x : vec) : Q := dot (c a) x.

Definition optimal (a : linprog_args) (x : vec) : Prop :=
  feasible a x /\ forall y, feasible a y -> objective a x <= objective a y.

(** [v] is the minimum of the objective over the feasible set. *)
Definition min_value (a : linprog_args) (v : Q) : Prop :=
  (exists x, feasible a x /\ objective a x == v) /\
  forall y, feasible a y -> v <= objective a y.

(** Raising or lowering one right-hand side of the inequality system. *)
Definition set_capacity (a : linprog_args) (e : nat) (v : Q) : linprog_args :=
  {| c := c a; A_ub := A_ub a; b_ub := set_nth e v (b_ub a);
     A_eq := A_eq a; b_eq := b_eq a; bounds := bounds a; method := method a |}.

Fixpoint vsub (u v : vec) : vec :=
  match u, v with
  | a :: u', b :: v' => (a - b) :: vsub u' v'
  | _, _ => []
  end.

End Solver.

(** The fields of scipy's [OptimizeResult] as the notebook prints them
    ([fun] is written [fun_], the bare word being reserved). *)
Module Result.

Record t : Type := {
  con : vec;
  fun_ : Q;
  message : string;
  nit : nat;
  slack : vec;
  status : Z;
  success : bool;
  x : vec
}.

End Result.

Import Solver.

(** What a successful result means, read in exact arithmetic: [x] is optimal,
    [fun] is its objective, [slack] is [b_ub - A_ub @ x] and [con] is
    [b_eq - A_eq @ x].  The result the notebook records meets it; on other
    data a floating-point solve meets the rows only up to a residual. *)
Definition solves (a : linprog_args) (r : Result.t) : Prop :=
  Result.success r = true /\
  Result.status r = 0%Z /\
  optimal a (Result.x r) /\
  Result.fun_ r == objective a (Result.x r) /\
  vec_eq (Result.slack r) (vsub (b_ub a) (mat_vec (A_ub a) (Result.x r))) /\
  vec_eq (Result.con r) (vsub (b_eq a) (mat_vec (A_eq a) (Result.x r))).

(** ** The solve and the decoding *)

Module Run.

(** In [10]: the call, [bounds] not among its arguments. *)
Definition opt_args : linprog_args :=
  {| c := obj; A_ub := lhs_capacity; b_ub := rhs_capacity;
     A_eq := lhs_balance; b_eq := rhs_balance;
     bounds := None; method := "revised simplex" |}.

(** The value of [opt] shown under the cell. *)
Definition opt : Result.t :=
  {| Result.con := [0; 0; 0; 0; 0; 0; 0; 0; 0; 0; 0; 0];
     Result.fun_ := -6;
     Result.message := "Optimization terminated successfully.";
     Result.nit := 15;
     Result.slack := [0; 0; 2; 1; 1; 0; 2; 2; 4; 0; 4; 1; 1; 0; 3; 2; 0];
     Result.status := 0;
     Result.success := true;
     Result.x := [3; 3; 2; 1; 1; 2; 1; 2; 1; 3; 0; 3; 2; 5; 0; 1; 1] |}.

(** The flow value the notebook reads off: the objective with its sign
    turned back. *)
Definition flow_value (x : vec) : Q := - dot obj x.

(** In [23]: [np.column_stack([labs, x])], rows of label and number in the
    order of [labs]; columns of different lengths are refused. *)
Fixpoint column_stack2 (ls : list string) (xs : vec) : option (list (string * Q)) :=
  match ls, xs with
  | [], [] => Some []
  | l :: ls', q :: xs' =>
      match column_stack2 ls' xs' with
      | Some rows => Some ((l, q) :: rows)
      | None => None
      end
  | _, _ => None
  end.

Definition decode (xs : vec) : option (list (string * Q)) := column_stack2 labs xs.

Definition x : vec := Result.x opt.

Definition optimal_flow : option (list (string * Q)) := decode x.

End Run.

Import Run.

(** ** The cells as a function of the lists typed into them *)

Module Build.

(** The problem instance: the lists the notebook spells out by hand. *)
Record instance : Type := {
  i_labs : list string;
  i_obj : vec;
  i_rhs_capacity : vec;
  i_lhs_balance : matrix
}.

Definition hardcoded : instance :=
  {| i_labs := labs; i_obj := obj;
     i_rhs_capacity := rhs_capacity; i_lhs_balance := lhs_balance |}.

Definition with_capacity (caps : vec) : instance :=
  {| i_labs := labs; i_obj := obj;
     i_rhs_capacity := caps; i_lhs_balance := lhs_balance |}.

(** In [4] to In [10], up to the call.  The sizes 17 and 12 are literals of
    the notebook.  The only statement that can fail is the [column_stack] of
    In [7]; no cell looks at the sign of a capacity or at the node names. *)
Definition build (d : instance) : option linprog_args :=
  match column_stack3 (arange 17) (i_labs d) (i_rhs_capacity d) with
  | None => None
  | Some _ =>
      Some {| c := i_obj d; A_ub := eye 17; b_ub := i_rhs_capacity d;
              A_eq := i_lhs_balance d; b_eq := zeros 12;
              bounds := None; method := "revised simplex" |}
  end.

(** The nodes an instance mentions, read from its labels. *)
Definition mentions (n : ascii) (ls : list string) : bool :=
  existsb (fun l => node_eqb n (edge_src l) || node_eqb n (edge_dst l)) ls.

(** A graph the specification calls malformed: the source or the sink is
    missing, or a capacity is negative. *)
Definition malformed (d : instance) : bool :=
  negb (mentions source (i_labs d)) ||
  negb (mentions sink (i_labs d)) ||
  existsb (fun q => negb (Qle_bool 0 q)) (i_rhs_capacity d).

End Build.

Import Build.

(** ** The two readings of the conservation rows *)

Module Balance.

Definition ind (b : bool) : Q := if b then 1 else 0.

(** The rule the rows of [lhs_balance] follow: +1 on the edges that leave
    the node, -1 on the edges that enter it; on the start row the edges into
    the target are subtracted, on the target row they are added back. *)
Definition notebook_coeff (n : ascii) (l : string) : Q :=
  ind (node_eqb n (edge_src l)) - ind (node_eqb n (edge_dst l))
  + (if Ascii.eqb n source then - ind (node_eqb sink (edge_dst l))
     else if Ascii.eqb n sink then ind (node_eqb sink (edge_dst l))
     else 0).

Definition notebook_row (n : ascii) : vec := map (notebook_coeff n) labs.

(** The rule as the specification words it: +1 on the edges whose destination
    is the node, -1 on the edges whose source is the node, nothing else, and a
    row for every node but the sink. *)
Definition spec_coeff (n : ascii) (l : string) : Q :=
  ind (node_eqb n (edge_dst l)) - ind (node_eqb n (edge_src l)).

Definition spec_balance : matrix :=
  map (fun n => map (spec_coeff n) labs) (source :: internal_nodes).

End Balance.

Import Balance.

(** ** Inputs used to exercise the definitions *)

Module Inputs.

(** A solution vector with round-off on [e_EG]: -1e-12 where [x] has 0. *)
Definition noisy_x : vec := set_nth 10 (-1 # 1000000000000) x.

(** The notebook's lists with the capacity of [e_sA] typed as -1. *)
Definition negative_capacity : instance := with_capacity (set_nth 0 (-1) rhs_capacity).

(** The notebook's lists with the two edges into [t] redirected to [A]:
    no label mentions the target any more. *)
Definition no_sink : instance :=
  {| i_labs :=
       ["e_sA"; "e_sB"; "e_AC"; "e_AD"; "e_BC"; "e_BE"; "e_CE"; "e_CG"; "e_DI";
        "e_EF"; "e_EG"; "e_FH"; "e_GH"; "e_HA"; "e_GI"; "e_IJ"; "e_JA"]%string;
     i_obj := obj; i_rhs_capacity := rhs_capacity; i_lhs_balance := lhs_balance |}.

(** [x] with one unit taken off the path s, A, D, I, J, t. *)
Definition x_without_Jt : vec :=
  [2; 3; 2; 0; 1; 2; 1; 2; 0; 3; 0; 3; 2; 5; 0; 0; 0].

End Inputs.

Import Inputs.

(** ** Cuts of the network, and further inputs *)

Module Cuts.

(** An edge crosses out of the node set [S] when it starts in [S] and ends
    outside. *)
Definition crosses (S : ascii -> bool) (l : string) : bool :=
  match edge_src l, edge_dst l with
  | Some u, Some w => S u && negb (S w)
  | _, _ => false
  end.

(** What the edges out of [S] carry, read from a vector indexed like [labs]:
    the cut's capacity on the capacities, the forward flow on a solution. *)
Definition cut_capacity (S : ascii -> bool) (caps : vec) : Q :=
  flow_on (crosses S) labs caps.

Definition forward_flow (S : ascii -> bool) (y : vec) : Q :=
  flow_on (crosses S) labs y.

Definition backward_flow (S : ascii -> bool) (y : vec) : Q :=
  flow_on (crosses (fun n => negb (S n))) labs y.

(** A node set given by the list of its members. *)
Definition among (ns : list ascii) (n : ascii) : bool := existsb (Ascii.eqb n) ns.

End Cuts.

Import Cuts.

Module MoreInputs.

(** A second routing of six units: the unit through [J] goes by [C], [G]
    and [I] and no longer by [D]. *)
Definition x_alt : vec :=
  [3; 3; 3; 0; 1; 2; 1; 3; 0; 3; 0; 3; 2; 5; 1; 1; 1].

(** The point a share [k] of the way from [v] to [u]. *)
Definition blend (k : Q) (u v : vec) : vec := vadd (scale k u) (scale (1 - k) v).

(** The recorded result with the second routing in place of [x]. *)
Definition opt_alt : Result.t :=
  {| Result.con := Result.con opt;
     Result.fun_ := -6;
     Result.message := Result.message opt;
     Result.nit := Result.nit opt;
     Result.slack := [0; 0; 1; 2; 1; 0; 2; 1; 5; 0; 4; 1; 1; 0; 2; 2; 0];
     Result.status := 0;
     Result.success := true;
     Result.x := x_alt |}.

End MoreInputs.

Import MoreInputs.

(** ** Meeting the program within a tolerance *)

Module Tolerance.







End Tolerance.

Import Tolerance.

(** * Properties *)

(** ** Boolean checks decide the propositions they stand for *)

Lemma pointwiseb_spec {A B : Type} (R : A -> B -> Prop) (r : A -> B -> bool) :
  (forall a b, r a b = true <-> R a b) ->
  forall l l', pointwiseb r l l' = true <-> pointwise R l l'.
Proof.
  intros Hr; induction l as [|a l IH]; destruct l' as [|b l']; simpl;
    try (split; [discriminate | contradiction]); [tauto|].
  rewrite andb_true_iff, Hr, IH; tauto.
Qed.

Lemma in_boundb_spec (b : bound) (v : Q) : in_boundb b v = true <-> in_bound b v.
Proof.
  unfold in_boundb, in_bound; rewrite andb_true_iff.
  destruct (fst b), (snd b); rewrite ?Qle_bool_iff; intuition.
Qed.

Lemma feasibleb_spec (a : linprog_args) (y : vec) :
  feasibleb a y = true <-> feasible a y.
Proof.
  unfold feasibleb, feasible, vec_leb, vec_le, vec_eqb, vec_eq.
  rewrite !andb_true_iff, Nat.eqb_eq.
  rewrite (pointwiseb_spec Qle Qle_bool Qle_bool_iff).
  rewrite (pointwiseb_spec Qeq Qeq_bool Qeq_bool_iff).
  rewrite (pointwiseb_spec in_bound in_boundb in_boundb_spec).
  tauto.
Qed.

(** ** A vector of known length, component by component *)

Ltac explode y H :=
  repeat (destruct y as [|? y]; [simpl in H; discriminate H|]);
  destruct y as [|? y]; [|simpl in H; discriminate H].

Ltac unfold_lp :=
  cbv [feasible objective flow_value opt_args c A_ub b_ub A_eq b_eq bounds
       effective_bounds default_bound in_bound fst snd
       obj lhs_capacity rhs_capacity lhs_balance rhs_balance
       eye zeros repeat seq Nat.eqb length
       mat_vec map dot vec_le vec_eq pointwise] in *.

(** ** The value of the program *)

(** The edges out of the start carry what the edges into the target carry,
    and both capacities out of the start are 3: no feasible point scores
    below -6. *)
Lemma objective_lower_bound (y : vec) :
  feasible opt_args y -> -6 <= objective opt_args y.
Proof.
  intros F. assert (L : length y = 17%nat) by apply F.
  explode y L. unfold_lp. lra.
Qed.

Lemma x_feasible : feasible opt_args x.
Proof. apply feasibleb_spec. vm_compute. reflexivity. Qed.

Lemma x_optimal : optimal opt_args x.
Proof.
  split; [exact x_feasible|].
  intros y F. apply objective_lower_bound in F.
  assert (E : objective opt_args x == -6) by (vm_compute; reflexivity).
  rewrite E. exact F.
Qed.

Lemma build_hardcoded : build hardcoded = Some opt_args.
Proof. reflexivity. Qed.

Lemma opt_solves : solves opt_args opt.
Proof.
  repeat split; try exact x_feasible; try apply x_optimal;
    vm_compute; try reflexivity; repeat split; discriminate.
Qed.

(** ** Objective vector *)

(** C7: the entry of [obj] for an edge is -1 when the edge leads into the
    sink and 0 otherwise; the -1 entries are at columns 13 and 16, which are
    [e_Ht] and [e_Jt], the only edges into [t]. *)
Theorem obj_marks_sink_edges :
  length obj = length labs /\
  obj = map (fun l => if node_eqb sink (edge_dst l) then -1 else 0) labs /\
  (forall i, (i < 17)%nat ->
     nth i obj 0 = -1 <-> (i = 13%nat \/ i = 16%nat)) /\
  columns_of (fun l => node_eqb sink (edge_dst l)) = [13%nat; 16%nat] /\
  nth 13 labs EmptyString = "e_Ht"%string /\
  nth 16 labs EmptyString = "e_Jt"%string.
Proof.
  split; [reflexivity|]. split; [reflexivity|].
  split; [|repeat split; reflexivity].
  intros i Hi; split.
  - intros E.
    do 17 (destruct i as [|i]; [cbn in E; try discriminate E; auto|]).
    lia.
  - intros [-> | ->]; reflexivity.
Qed.

(** C1: on the worked example (17 edges in the order of [labs], capacities
    [rhs_capacity]) the minimum of the negated objective over the program is
    -6, the recorded result attains it, and the flow value read off, the
    negation of the objective, is 6. *)
Theorem max_flow_is_six :
  length nodes = 12%nat /\
  well_labelled labs = true /\
  length labs = 17%nat /\
  b_ub opt_args = [3; 3; 4; 2; 2; 2; 3; 4; 5; 3; 4; 4; 3; 5; 3; 3; 1] /\
  min_value opt_args (-6) /\
  (forall y, optimal opt_args y -> objective opt_args y == -6 /\ flow_value y == 6) /\
  solves opt_args opt /\
  Result.fun_ opt = -6 /\
  - Result.fun_ opt == 6.
Proof.
  do 4 (split; [reflexivity|]).
  split.
  { split.
    - exists x. split; [exact x_feasible | vm_compute; reflexivity].
    - exact objective_lower_bound. }
  split.
  { intros y [F M].
    assert (Lo := objective_lower_bound y F).
    assert (Hi := M x x_feasible).
    assert (E : objective opt_args x == -6) by (vm_compute; reflexivity).
    rewrite E in Hi.
    assert (V : flow_value y == - objective opt_args y) by reflexivity.
    split; [|rewrite V]; lra. }
  split; [exact opt_solves|].
  split; [reflexivity | vm_compute; reflexivity].
Qed.

(** ** Conservation and capacities *)

Lemma column_stack3_length ns ls cs rows :
  column_stack3 ns ls cs = Some rows ->
  length ls = length ns /\ length cs = length ns.
Proof.
  revert ls cs rows; induction ns as [|n ns IH]; intros [|l ls] [|q cs] rows;
    simpl; try discriminate; [intros _; split; reflexivity|].
  destruct (column_stack3 ns ls cs) as [r|] eqn:E; [|discriminate].
  intros _. destruct (IH _ _ _ E) as [H1 H2]. split; congruence.
Qed.

Lemma build_with_capacity caps a :
  build (with_capacity caps) = Some a ->
  length caps = 17%nat /\
  a = {| c := obj; A_ub := lhs_capacity; b_ub := caps;
         A_eq := lhs_balance; b_eq := rhs_balance;
         bounds := None; method := "revised simplex" |}.
Proof.
  unfold build; cbn [with_capacity i_labs i_obj i_rhs_capacity i_lhs_balance].
  destruct (column_stack3 (arange 17) labs caps) as [rows|] eqn:E; [|discriminate].
  intros [= <-]. apply column_stack3_length in E. split; [apply E | reflexivity].
Qed.

Ltac unfold_flows :=
  cbn -[Qplus Qmult Qopp Qminus Qle Qeq Qlt] in *.









(** ** The reported value and the two ends of the network *)

(** C4: the value the notebook reports, the negated [fun] of the result, is
    the total flow on the edges into the target, [x[e_Ht] + x[e_Jt]], and
    also the total flow on the edges out of the start, [x[e_sA] + x[e_sB]]. *)
Theorem reported_value_is_inflow_and_outflow (r : Result.t) :
  solves opt_args r ->
  - Result.fun_ r == inflow sink (Result.x r) /\
  - Result.fun_ r == outflow source (Result.x r) /\
  inflow sink (Result.x r) == nth 13 (Result.x r) 0 + nth 16 (Result.x r) 0 /\
  outflow source (Result.x r) == nth 0 (Result.x r) 0 + nth 1 (Result.x r) 0.
Proof.
  intros (_ & _ & [F _] & Fu & _).
  set (y := Result.x r) in *. clearbody y.
  assert (L : length y = 17%nat) by apply F.
  explode y L. unfold_lp. unfold_flows. repeat split; lra.
Qed.

Lemma reported_value_is_inflow_and_outflow_witness :
  - Result.fun_ opt == inflow sink x /\
  - Result.fun_ opt == outflow source x /\
  inflow sink x == nth 13 x 0 + nth 16 x 0 /\
  outflow source x == nth 0 x 0 + nth 1 x 0.
Proof.
  exact (reported_value_is_inflow_and_outflow opt opt_solves).
Defined.

(** C10: every vector that satisfies [lhs_balance @ x == 0], optimal or not,
    has [x[0] + x[1] == x[13] + x[16]]: what leaves [s] is what enters [t].
    The start row is the one that says so, with its -1 on [e_Ht] and [e_Jt];
    the target row is all zero. *)
Theorem balance_ties_source_to_sink (y : vec) :
  length y = 17%nat ->
  vec_eq (mat_vec lhs_balance y) rhs_balance ->
  nth 0 y 0 + nth 1 y 0 == nth 13 y 0 + nth 16 y 0 /\
  outflow source y == inflow sink y /\
  nth 0 lhs_balance [] = [1; 1; 0; 0; 0; 0; 0; 0; 0; 0; 0; 0; 0; -1; 0; 0; -1] /\
  nth 11 lhs_balance [] = zeros 17.
Proof.
  intros L E. explode y L.
  cbv [lhs_balance rhs_balance zeros repeat
       mat_vec map dot vec_eq pointwise] in E.
  split; [|split; [|split; reflexivity]].
  - cbn [nth]. lra.
  - unfold_flows. lra.
Qed.

Lemma balance_ties_source_to_sink_witness :
  nth 0 x_without_Jt 0 + nth 1 x_without_Jt 0
    == nth 13 x_without_Jt 0 + nth 16 x_without_Jt 0 /\
  outflow source x_without_Jt == inflow sink x_without_Jt /\
  nth 0 lhs_balance [] = [1; 1; 0; 0; 0; 0; 0; 0; 0; 0; 0; 0; 0; -1; 0; 0; -1] /\
  nth 11 lhs_balance [] = zeros 17.
Proof.
  apply (balance_ties_source_to_sink x_without_Jt).
  - reflexivity.
  - vm_compute. repeat split.
Defined.

(** ** Bounds *)

(** C6: the call passes no [bounds], so [linprog] gives each of the 17 edge
    variables its default pair: lower bound 0, no upper bound. *)
Theorem every_variable_in_zero_to_infinity :
  bounds opt_args = None /\
  length (effective_bounds opt_args) = length labs /\
  length labs = 17%nat /\
  Forall (fun b => b = (Some 0, None)) (effective_bounds opt_args) /\
  (forall y, feasible opt_args y -> Forall (fun v => 0 <= v) y).
Proof.
  split; [reflexivity|]. split; [reflexivity|]. split; [reflexivity|].
  split; [repeat constructor|].
  intros y F. assert (L : length y = 17%nat) by apply F.
  explode y L. unfold_lp. repeat constructor; lra.
Qed.

(** ** Changing one capacity *)

Lemma set_nth_relax (u caps : vec) (e : nat) (v : Q) :
  nth e caps 0 <= v -> vec_le u caps -> vec_le u (set_nth e v caps).
Proof.
  unfold vec_le. revert u e.
  induction caps as [|q caps IH]; intros [|p u] e Hv H; simpl in *; try contradiction.
  - exact I.
  - destruct H as [Hp Hu]. destruct e as [|e]; simpl.
    + split; [lra | exact Hu].
    + split; [exact Hp | apply IH; assumption].
Qed.

Lemma set_nth_tighten (u caps : vec) (e : nat) (v : Q) :
  v <= nth e caps 0 -> vec_le u (set_nth e v caps) -> vec_le u caps.
Proof.
  unfold vec_le. revert u e.
  induction caps as [|q caps IH]; intros u e Hv H.
  - exact H.
  - destruct e as [|e], u as [|p u]; simpl in *; try contradiction;
      destruct H as [Hp Hu].
    + split; [lra | exact Hu].
    + split; [exact Hp | apply (IH u e); assumption].
Qed.

Section CapacityChange.

Variable a : linprog_args.
Variable e : nat.
Variable v : Q.

Let a' : linprog_args := set_capacity a e v.

Lemma feasible_relax (y : vec) :
  nth e (b_ub a) 0 <= v -> feasible a y -> feasible a' y.
Proof.
  intros Hv (L & Ub & Eq & Bd). repeat split; try assumption.
  apply set_nth_relax; assumption.
Qed.

Lemma feasible_tighten (y : vec) :
  v <= nth e (b_ub a) 0 -> feasible a' y -> feasible a y.
Proof.
  intros Hv (L & Ub & Eq & Bd). repeat split; try assumption.
  apply (set_nth_tighten _ _ e v); assumption.
Qed.

Lemma objective_unchanged (y : vec) : objective a' y = objective a y.
Proof. reflexivity. Qed.

(** C9: take any program of the shape the notebook builds and change the
    capacity of one edge [e] to [v], everything else as it was.  With [y]
    an optimal solution before and [y'] one after, the flow value (the
    negated objective) after a raise is not below the value before, and after
    a cut it is not above. *)
Theorem capacity_monotone (y y' : vec) :
  optimal a y ->
  optimal (set_capacity a e v) y' ->
  (nth e (b_ub a) 0 <= v ->
     - objective a y <= - objective (set_capacity a e v) y') /\
  (v <= nth e (b_ub a) 0 ->
     - objective (set_capacity a e v) y' <= - objective a y).
Proof.
  fold a'. intros [F M] [F' M']. split; intros Hv.
  - apply (feasible_relax y Hv) in F. specialize (M' y F).
    rewrite !objective_unchanged in *. lra.
  - apply (feasible_tighten y' Hv) in F'. specialize (M y' F').
    rewrite !objective_unchanged in *. lra.
Qed.

End CapacityChange.

Lemma x_without_Jt_optimal : optimal (set_capacity opt_args 16 0) x_without_Jt.
Proof.
  split; [apply feasibleb_spec; vm_compute; reflexivity|].
  intros y F. assert (L : length y = 17%nat) by apply F.
  assert (E : objective (set_capacity opt_args 16 0) x_without_Jt == -5)
    by (vm_compute; reflexivity).
  rewrite E. explode y L.
  cbv [set_capacity set_nth] in *. unfold_lp. lra.
Qed.

Lemma capacity_monotone_witness :
  (nth 16 (b_ub opt_args) 0 <= 0 ->
     - objective opt_args x <= - objective (set_capacity opt_args 16 0) x_without_Jt) /\
  (0 <= nth 16 (b_ub opt_args) 0 ->
     - objective (set_capacity opt_args 16 0) x_without_Jt <= - objective opt_args x).
Proof.
  exact (capacity_monotone opt_args 16 0 x x_without_Jt x_optimal x_without_Jt_optimal).
Defined.

(** ** The shape of the balance system *)

Lemma internal_rows_independent : full_row_rank 17 (firstn 10 (skipn 1 lhs_balance)).
Proof.
  intros lam L E. cbn [firstn skipn lhs_balance length] in L.
  explode lam L.
  cbv [firstn skipn lhs_balance vec_mat vadd scale map zeros repeat
       vec_eq pointwise] in E.
  repeat (apply Forall_cons; [cbv beta; lra|]). apply Forall_nil.
Qed.

Lemma zero_row_breaks_rank : ~ full_row_rank 17 lhs_balance.
Proof.
  intros R.
  specialize (R [0; 0; 0; 0; 0; 0; 0; 0; 0; 0; 0; 1] eq_refl).
  assert (E : vec_eq (vec_mat 17 [0; 0; 0; 0; 0; 0; 0; 0; 0; 0; 0; 1] lhs_balance)
                (zeros 17)) by (vm_compute; repeat split).
  apply R in E. apply Forall_forall with (x := 1) in E.
  - discriminate E.
  - do 11 right. left. reflexivity.
Qed.

(** C3, as stated, fails: the balance system has a row for each of the 12
    nodes, the target included; that row is all zero, so the rows are
    dependent; and the matrix is not the one the incidence rule with the
    target left out would give. *)
Lemma balance_system_is_not_spec_incidence :
  length lhs_balance = length nodes /\
  length spec_balance = 11%nat /\
  length lhs_balance = 12%nat /\
  nth 11 lhs_balance [] = zeros 17 /\
  nth 0 lhs_balance [] = [1; 1; 0; 0; 0; 0; 0; 0; 0; 0; 0; 0; 0; -1; 0; 0; -1] /\
  nth 0 spec_balance [] = [-1; -1; 0; 0; 0; 0; 0; 0; 0; 0; 0; 0; 0; 0; 0; 0; 0] /\
  lhs_balance <> spec_balance /\
  ~ full_row_rank 17 lhs_balance.
Proof.
  repeat (split; [reflexivity|]).
  split; [discriminate | exact zero_row_breaks_rank].
Qed.

(** C3, amended: the balance system has one row per node, the target
    included, with right-hand side 0.  The row of a node other than start and
    target has +1 on every edge that leaves the node and -1 on every edge
    that enters it (the incidence rule with the opposite sign), nothing else;
    the start row has in addition -1 on the edges into the target; the target
    row is all zero.  The ten rows of the inner nodes are independent; they
    and the start row add up to zero, so the twelve rows are not. *)
Theorem balance_system_shape :
  lhs_balance = map notebook_row nodes /\
  length lhs_balance = 12%nat /\
  rhs_balance = zeros (length nodes) /\
  (forall n l, In n internal_nodes -> notebook_coeff n l == - spec_coeff n l) /\
  (forall l, notebook_coeff source l
             == - spec_coeff source l - ind (node_eqb sink (edge_dst l))) /\
  notebook_row sink = zeros 17 /\
  full_row_rank 17 (firstn 10 (skipn 1 lhs_balance)) /\
  vec_eq (vec_mat 17 [1; 1; 1; 1; 1; 1; 1; 1; 1; 1; 1; 0] lhs_balance) (zeros 17) /\
  ~ full_row_rank 17 lhs_balance.
Proof.
  split; [vm_compute; reflexivity|]. split; [reflexivity|]. split; [reflexivity|].
  split.
  { intros n l Hn. unfold notebook_coeff, spec_coeff.
    simpl in Hn.
    repeat (destruct Hn as [<- | Hn]; [cbn [Ascii.eqb Bool.eqb source sink]; lra|]).
    contradiction. }
  split.
  { intros l. unfold notebook_coeff, spec_coeff.
    cbn [Ascii.eqb Bool.eqb source]. lra. }
  split; [vm_compute; reflexivity|].
  split; [exact internal_rows_independent|].
  split; [vm_compute; repeat split | exact zero_row_breaks_rank].
Qed.

(** ** Decoding the solution *)

Lemma column_stack2_combine (ls : list string) (xs : vec) :
  length xs = length ls -> column_stack2 ls xs = Some (combine ls xs).
Proof.
  revert xs; induction ls as [|l ls IH]; intros [|q xs] L; simpl in *;
    try discriminate L; [reflexivity|].
  rewrite IH by (injection L; auto). reflexivity.
Qed.

Lemma combine_projections {A B : Type} (l : list A) (l' : list B) :
  length l' = length l ->
  map fst (combine l l') = l /\ map snd (combine l l') = l'.
Proof.
  revert l'; induction l as [|a l IH]; intros [|b l'] L; simpl in *;
    try discriminate L; [split; reflexivity|].
  destruct (IH l') as [H1 H2]; [injection L; auto|].
  rewrite H1, H2. split; reflexivity.
Qed.

(** C5, as stated, fails: a component of -1e-12 on [e_EG] comes out of the
    decoding as it went in, below zero, next to its label. *)
Lemma decode_keeps_negative_noise :
  nth 10 noisy_x 0 = -1 # 1000000000000 /\
  decode noisy_x = Some (combine labs noisy_x) /\
  nth 10 (combine labs noisy_x) (EmptyString, 0)
    = ("e_EG"%string, -1 # 1000000000000) /\
  (-1 # 1000000000000) < 0 /\
  Exists (fun lv => snd lv < 0) (combine labs noisy_x).
Proof.
  repeat (split; [reflexivity|]).
  do 10 apply Exists_cons_tl. apply Exists_cons_hd. reflexivity.
Qed.

(** C5, amended: decoding pairs the label at each position with the
    component of the solution at that position, in the order of [labs], and
    leaves every number as it is, whatever its sign; it raises nothing for a
    vector with one component per label. *)
Theorem decode_is_positional (xs : vec) :
  length xs = length labs ->
  decode xs = Some (combine labs xs) /\
  map fst (combine labs xs) = labs /\
  map snd (combine labs xs) = xs.
Proof.
  intros L. split; [apply column_stack2_combine; exact L|].
  apply combine_projections; exact L.
Qed.

Lemma decode_is_positional_witness :
  decode noisy_x = Some (combine labs noisy_x) /\
  map fst (combine labs noisy_x) = labs /\
  map snd (combine labs noisy_x) = noisy_x.
Proof.
  apply (decode_is_positional noisy_x). reflexivity.
Defined.

(** ** Building from malformed lists *)

(** C8, as stated, fails: with a capacity of -1, and likewise with no edge
    that mentions the target, the cells run through and hand [linprog] a
    complete program. *)
Lemma build_accepts_malformed :
  malformed negative_capacity = true /\
  (exists a, build negative_capacity = Some a /\ nth 0 (b_ub a) 0 = -1) /\
  malformed no_sink = true /\
  (exists a, build no_sink = Some a) /\
  malformed hardcoded = false.
Proof.
  split; [reflexivity|]. split; [eexists; split; reflexivity|].
  split; [reflexivity|]. split; [eexists; reflexivity | reflexivity].
Qed.

Lemma column_stack3_total (ns : list nat) (ls : list string) (cs : vec) :
  length ls = length ns -> length cs = length ns ->
  exists rows, column_stack3 ns ls cs = Some rows.
Proof.
  revert ls cs; induction ns as [|n ns IH]; intros [|l ls] [|q cs] L1 L2;
    simpl in *; try discriminate; [eexists; reflexivity|].
  destruct (IH ls cs) as [rows ->]; [congruence | congruence |].
  eexists; reflexivity.
Qed.

(** C8, amended: the cells check nothing about the graph.  For any 17 labels
    and 17 capacities, whatever the signs of the capacities and whichever
    nodes the labels mention, they produce the complete program, with the
    capacities passed on unchanged as [b_ub]; the notebook's own lists are one
    such input. *)
Theorem build_checks_nothing (d : instance) :
  length (i_labs d) = 17%nat ->
  length (i_rhs_capacity d) = 17%nat ->
  build d = Some {| c := i_obj d; A_ub := eye 17; b_ub := i_rhs_capacity d;
                    A_eq := i_lhs_balance d; b_eq := zeros 12;
                    bounds := None; method := "revised simplex" |}.
Proof.
  intros L1 L2. unfold build.
  destruct (column_stack3_total (arange 17) (i_labs d) (i_rhs_capacity d))
    as [rows ->]; [exact L1 | exact L2 | reflexivity].
Qed.

Lemma build_checks_nothing_witness :
  malformed negative_capacity = true /\
  build negative_capacity
  = Some {| c := obj; A_ub := eye 17; b_ub := set_nth 0 (-1) rhs_capacity;
            A_eq := lhs_balance; b_eq := zeros 12;
            bounds := None; method := "revised simplex" |}.
Proof.
  split; [reflexivity|].
  apply (build_checks_nothing negative_capacity); reflexivity.
Defined.

(** * Further properties *)

(** ** The identity matrix of the capacity system *)

Lemma dot_indicator (i : nat) (y : vec) (s : nat) :
  dot (map (fun j => if Nat.eqb i j then 1 else 0) (seq s (length y))) y
  == if Nat.ltb i s then 0 else nth (i - s) y 0.
Proof.
  revert s; induction y as [|q y IH]; intros s.
  - simpl. destruct (Nat.ltb i s), (i - s)%nat; reflexivity.
  - cbn [length seq map dot]. rewrite IH.
    destruct (Nat.eqb_spec i s) as [->|Ne].
    + rewrite Nat.sub_diag. cbn [nth].
      replace (Nat.ltb s (S s)) with true by (symmetry; apply Nat.ltb_lt; lia).
      replace (Nat.ltb s s) with false by (symmetry; apply Nat.ltb_ge; lia).
      lra.
    + destruct (Nat.ltb_spec i s) as [Lt|Ge].
      * replace (Nat.ltb i (S s)) with true by (symmetry; apply Nat.ltb_lt; lia).
        lra.
      * replace (Nat.ltb i (S s)) with false by (symmetry; apply Nat.ltb_ge; lia).
        replace (i - s)%nat with (S (i - S s)) by lia. cbn [nth]. lra.
Qed.

Lemma pointwise_tabulate (g : nat -> Q) (l : vec) (s : nat) :
  (forall k, (k < length l)%nat -> g (s + k)%nat == nth k l 0) ->
  vec_eq (map g (seq s (length l))) l.
Proof.
  unfold vec_eq. revert s; induction l as [|q l IH]; intros s H; [exact I|].
  cbn [length seq map pointwise]. split.
  - rewrite <- (Nat.add_0_r s). apply (H 0%nat). simpl; lia.
  - apply IH. intros k Hk. replace (S s + k)%nat with (s + S k)%nat by lia.
    apply (H (S k)). simpl; lia.
Qed.

Lemma vec_le_compat (u u' b : vec) :
  vec_eq u u' -> (vec_le u b <-> vec_le u' b).
Proof.
  unfold vec_eq, vec_le. revert u' b; induction u as [|p u IH];
    intros [|p' u'] [|q b] E; simpl in *; try tauto.
  destruct E as [E1 E2]. rewrite (IH u' b E2), E1. tauto.
Qed.

(** X1: [np.eye(n) @ y] is [y] for every vector of [n] components, so the
    rows [lhs_capacity @ y <= rhs_capacity] say [y[e] <= rhs_capacity[e]],
    edge by edge. *)
Theorem eye_is_identity (y b : vec) :
  vec_eq (mat_vec (eye (length y)) y) y /\
  (vec_le (mat_vec (eye (length y)) y) b <-> vec_le y b).
Proof.
  assert (E : vec_eq (mat_vec (eye (length y)) y) y).
  { unfold mat_vec, eye. rewrite map_map.
    apply pointwise_tabulate. intros k Hk.
    rewrite dot_indicator. cbn [Nat.add Nat.ltb Nat.leb].
    rewrite Nat.sub_0_r. reflexivity. }
  split; [exact E | apply vec_le_compat; exact E].
Qed.

(** ** The two tables *)

(** X2: when [np.column_stack([nums, labs, rhs_capacity])] goes through, the
    table has one row per entry and its three columns are the three lists it
    was given, in their order. *)
Theorem column_stack3_columns (ns : list nat) (ls : list string) (cs : vec)
        (rows : list (nat * string * Q)) :
  column_stack3 ns ls cs = Some rows ->
  map (fun r => fst (fst r)) rows = ns /\
  map (fun r => snd (fst r)) rows = ls /\
  map snd rows = cs /\
  length rows = length ns.
Proof.
  revert ls cs rows; induction ns as [|n ns IH]; intros [|l ls] [|q cs] rows;
    simpl; try discriminate.
  - intros [= <-]. repeat split.
  - destruct (column_stack3 ns ls cs) as [r|] eqn:E; [|discriminate].
    intros [= <-]. destruct (IH _ _ _ E) as (H1 & H2 & H3 & H4).
    simpl. rewrite H1, H2, H3, H4. repeat split.
Qed.

Lemma column_stack3_columns_witness :
  exists rows,
    labeled_capacity = Some rows /\
    map (fun r => fst (fst r)) rows = nums /\
    map (fun r => snd (fst r)) rows = labs /\
    map snd rows = rhs_capacity /\
    length rows = length nums.
Proof.
  eexists. split; [reflexivity|].
  apply (column_stack3_columns nums labs rhs_capacity). reflexivity.
Defined.

Lemma column_stack2_length (ls : list string) (xs : vec) rows :
  column_stack2 ls xs = Some rows -> length xs = length ls.
Proof.
  revert xs rows; induction ls as [|l ls IH]; intros [|q xs] rows; simpl;
    try discriminate; [reflexivity|].
  destruct (column_stack2 ls xs) as [r|] eqn:E; [|discriminate].
  intros _. f_equal. exact (IH _ _ E).
Qed.

(** X3: the two [column_stack] calls raise exactly on columns of different
    lengths: the capacity table needs as many labels and as many capacities as
    indices, the flow table needs one solution component per label. *)
Theorem column_stack_fails_on_length_mismatch
        (ns : list nat) (ls : list string) (cs xs : vec) :
  (column_stack3 ns ls cs = None <->
     ~ (length ls = length ns /\ length cs = length ns)) /\
  (decode xs = None <-> length xs <> length labs).
Proof.
  split; split.
  - intros N [L1 L2].
    destruct (column_stack3_total ns ls cs L1 L2) as [rows E]. congruence.
  - intros N. destruct (column_stack3 ns ls cs) as [rows|] eqn:E; [|reflexivity].
    exfalso. apply N. exact (column_stack3_length _ _ _ _ E).
  - intros N L. unfold decode in N.
    rewrite (column_stack2_combine labs xs L) in N. discriminate N.
  - intros N. unfold decode.
    destruct (column_stack2 labs xs) as [rows|] eqn:E; [|reflexivity].
    exfalso. apply N. exact (column_stack2_length _ _ _ E).
Qed.

(** ** Feasible points of the program, for any capacities *)

Ltac unfold_lp_with :=
  cbv [feasible objective flow_value c A_ub b_ub A_eq b_eq bounds
       effective_bounds default_bound in_bound fst snd
       obj lhs_capacity lhs_balance rhs_balance
       eye zeros repeat seq Nat.eqb length
       mat_vec map dot vec_le vec_eq pointwise] in *.

Lemma feasible_box (caps : vec) (a : linprog_args) (y : vec) :
  build (with_capacity caps) = Some a ->
  feasible a y ->
  length y = 17%nat /\
  Forall (fun q => 0 <= q) y /\
  vec_le y caps /\
  vec_eq (mat_vec lhs_balance y) rhs_balance.
Proof.
  intros B F. apply build_with_capacity in B. destruct B as [Lc ->].
  assert (L : length y = 17%nat) by apply F.
  assert (Eq : vec_eq (mat_vec lhs_balance y) rhs_balance) by apply F.
  split; [exact L|]. split; [|split; [|exact Eq]]; clear Eq;
    explode y L; explode caps Lc; unfold_lp_with.
  - repeat (apply Forall_cons; [lra|]). apply Forall_nil.
  - repeat split; lra.
Qed.

(** X4: the program has a feasible point exactly when no capacity is
    negative.  With capacities all at least 0 the zero flow is feasible; a
    negative capacity, which the cells accept, leaves [linprog] nothing to
    choose from. *)
Theorem feasible_iff_capacities_nonnegative (caps : vec) (a : linprog_args) :
  build (with_capacity caps) = Some a ->
  ((exists y, feasible a y) <-> Forall (fun q => 0 <= q) caps) /\
  (Forall (fun q => 0 <= q) caps -> feasible a (zeros 17)).
Proof.
  intros B.
  assert (Z : Forall (fun q => 0 <= q) caps -> feasible a (zeros 17)).
  { apply build_with_capacity in B. destruct B as [Lc ->].
    intros H. explode caps Lc. rewrite !Forall_cons_iff in H.
    unfold_lp_with. repeat split; lra. }
  split; [split|exact Z].
  - intros [y F]. destruct (feasible_box caps a y B F) as (L & P & Le & _).
    apply build_with_capacity in B. destruct B as [Lc _].
    explode y L. explode caps Lc. rewrite !Forall_cons_iff in P.
    cbv [vec_le pointwise] in Le.
    repeat (apply Forall_cons; [lra|]). apply Forall_nil.
  - intros H. exists (zeros 17). exact (Z H).
Qed.

Lemma feasible_iff_capacities_nonnegative_witness :
  ((exists y, feasible opt_args y) <-> Forall (fun q => 0 <= q) rhs_capacity) /\
  (Forall (fun q => 0 <= q) rhs_capacity -> feasible opt_args (zeros 17)).
Proof.
  exact (feasible_iff_capacities_nonnegative rhs_capacity opt_args build_hardcoded).
Defined.

(** ** Cuts *)

Lemma flow_on_nonneg (p : string -> bool) (ls : list string) (y : vec) :
  Forall (fun q => 0 <= q) y -> 0 <= flow_on p ls y.
Proof.
  intros H; revert ls; induction H as [|q y Hq _ IH]; intros [|l ls]; simpl;
    try lra.
  specialize (IH ls). destruct (p l); lra.
Qed.

Lemma flow_on_mono (p : string -> bool) (ls : list string) (y caps : vec) :
  vec_le y caps -> flow_on p ls y <= flow_on p ls caps.
Proof.
  unfold vec_le. revert ls caps; induction y as [|q y IH];
    intros [|l ls] [|k caps] H; simpl in *; try contradiction; try lra.
  destruct H as [H1 H2]. specialize (IH ls caps H2). destruct (p l); lra.
Qed.

Ltac split_cut S :=
  repeat match goal with
         | |- context [S ?n] => destruct (S n)
         end.

Lemma net_flow_across_cut (S : ascii -> bool) (y : vec) :
  length y = 17%nat ->
  vec_eq (mat_vec lhs_balance y) rhs_balance ->
  S source = true ->
  S sink = false ->
  forward_flow S y - backward_flow S y == flow_value y.
Proof.
  intros L E Hs Ht. explode y L.
  cbv [lhs_balance rhs_balance zeros repeat
       mat_vec map dot vec_eq pointwise] in E.
  unfold forward_flow, backward_flow, flow_value.
  cbn -[Qplus Qmult Qopp Qminus Qle Qeq Qlt].
  unfold source, sink in Hs, Ht. rewrite ?Hs, ?Ht.
  split_cut S; cbn [andb negb]; lra.
Qed.

(** X5: take any set of nodes that holds the start and not the target.  For
    every vector that satisfies the balance rows, what crosses out of the set
    minus what crosses back into it is the flow value. *)
Theorem cut_conservation (S : ascii -> bool) (y : vec) :
  length y = 17%nat ->
  vec_eq (mat_vec lhs_balance y) rhs_balance ->
  S source = true ->
  S sink = false ->
  forward_flow S y - backward_flow S y == flow_value y /\
  forward_flow S y - backward_flow S y == inflow sink y.
Proof.
  intros L E Hs Ht. split; [exact (net_flow_across_cut S y L E Hs Ht)|].
  rewrite (net_flow_across_cut S y L E Hs Ht).
  explode y L. unfold flow_value. unfold_flows. cbv [obj dot]. lra.
Qed.

Lemma cut_conservation_witness :
  forward_flow (among ["s"; "A"; "B"; "C"; "E"]%char) x
  - backward_flow (among ["s"; "A"; "B"; "C"; "E"]%char) x == flow_value x /\
  forward_flow (among ["s"; "A"; "B"; "C"; "E"]%char) x
  - backward_flow (among ["s"; "A"; "B"; "C"; "E"]%char) x == inflow sink x.
Proof.
  apply (cut_conservation (among ["s"; "A"; "B"; "C"; "E"]%char) x).
  - reflexivity.
  - vm_compute. repeat split.
  - reflexivity.
  - reflexivity.
Defined.

(** X6: whatever the capacities, the flow value of a feasible point is at
    least 0 and at most the capacity of any cut between start and target:
    the total capacity of the edges that leave a node set holding the start
    and not the target. *)
Theorem flow_value_below_every_cut
        (caps : vec) (a : linprog_args) (S : ascii -> bool) (y : vec) :
  build (with_capacity caps) = Some a ->
  feasible a y ->
  S source = true ->
  S sink = false ->
  0 <= flow_value y /\ flow_value y <= cut_capacity S caps.
Proof.
  intros B F Hs Ht.
  destruct (feasible_box caps a y B F) as (L & P & Le & E).
  assert (N := net_flow_across_cut S y L E Hs Ht).
  assert (Bk := flow_on_nonneg (crosses (fun n => negb (S n))) labs y P).
  assert (Fw := flow_on_mono (crosses S) labs y caps Le).
  fold (backward_flow S y) in Bk.
  fold (forward_flow S y) (cut_capacity S caps) in Fw.
  split; [|lra].
  clear - L P. explode y L. rewrite !Forall_cons_iff in P.
  unfold flow_value. cbv [obj dot]. lra.
Qed.

Lemma flow_value_below_every_cut_witness :
  0 <= flow_value x /\
  flow_value x <= cut_capacity (among ["s"; "A"; "B"; "C"; "E"]%char) rhs_capacity.
Proof.
  apply (flow_value_below_every_cut rhs_capacity opt_args
           (among ["s"; "A"; "B"; "C"; "E"]%char) x build_hardcoded x_feasible);
    reflexivity.
Defined.

(** ** What every successful result shares, and what it does not *)

Lemma optimal_same_objective (a : linprog_args) (y y' : vec) :
  optimal a y -> optimal a y' -> objective a y == objective a y'.
Proof.
  intros [F M] [F' M']. apply Qle_antisym; [apply M | apply M']; assumption.
Qed.

(** X7: two successful results of the same call report the same [fun],
    whatever solution vector each of them carries. *)
Theorem fun_is_determined (a : linprog_args) (r r' : Result.t) :
  solves a r -> solves a r' -> Result.fun_ r == Result.fun_ r'.
Proof.
  intros (_ & _ & O & Fu & _) (_ & _ & O' & Fu' & _).
  rewrite Fu, Fu'. exact (optimal_same_objective a _ _ O O').
Qed.

Lemma x_alt_optimal : optimal opt_args x_alt.
Proof.
  split; [apply feasibleb_spec; vm_compute; reflexivity|].
  intros y F. apply objective_lower_bound in F.
  assert (E : objective opt_args x_alt == -6) by (vm_compute; reflexivity).
  rewrite E. exact F.
Qed.

Lemma opt_alt_solves : solves opt_args opt_alt.
Proof.
  repeat split; try apply x_alt_optimal;
    vm_compute; try reflexivity; repeat split; discriminate.
Qed.

Lemma fun_is_determined_witness :
  Result.fun_ opt == Result.fun_ opt_alt /\ Result.x opt <> Result.x opt_alt.
Proof.
  split; [exact (fun_is_determined opt_args opt opt_alt opt_solves opt_alt_solves)|].
  discriminate.
Defined.

(** X8: the solution vector is not determined by the program: every point
    on the segment between the recorded [x] and the routing [x_alt] is
    optimal, and the flow it puts on [e_AD] is its share [k] of [x], so
    different shares are different optimal solutions. *)
Theorem optimal_solutions_form_a_segment (k : Q) :
  0 <= k -> k <= 1 ->
  optimal opt_args (blend k x x_alt) /\
  flow_value (blend k x x_alt) == 6 /\
  nth 3 (blend k x x_alt) 0 == k.
Proof.
  intros K0 K1.
  assert (E : objective opt_args (blend k x x_alt) == -6).
  { cbv [blend vadd scale map x Result.x opt x_alt objective opt_args c obj dot]. lra. }
  split; [split|split].
  - cbv [blend vadd scale map x Result.x opt x_alt]. unfold_lp. repeat split; lra.
  - intros y F. rewrite E. exact (objective_lower_bound y F).
  - change (flow_value (blend k x x_alt)) with (- objective opt_args (blend k x x_alt)).
    rewrite E. reflexivity.
  - cbv [blend vadd scale map x Result.x opt x_alt nth]. lra.
Qed.

Lemma optimal_solutions_form_a_segment_witness :
  optimal opt_args (blend (1 # 2) x x_alt) /\
  flow_value (blend (1 # 2) x x_alt) == 6 /\
  nth 3 (blend (1 # 2) x x_alt) 0 == 1 # 2.
Proof.
  apply (optimal_solutions_form_a_segment (1 # 2)); discriminate.
Defined.

(** X9: in every optimal solution the two edges out of the start and the two
    edges into the target are full, and the edge from [I] to [J] carries the
    one unit that [e_Jt] can take. *)
Theorem optimal_saturates_both_ends (y : vec) :
  optimal opt_args y ->
  nth 0 y 0 == 3 /\ nth 1 y 0 == 3 /\ nth 13 y 0 == 5 /\ nth 16 y 0 == 1 /\
  nth 15 y 0 == 1.
Proof.
  intros O.
  assert (E := optimal_same_objective opt_args y x O x_optimal).
  destruct O as [F _]. assert (L : length y = 17%nat) by apply F.
  assert (V : objective opt_args x == -6) by (vm_compute; reflexivity).
  rewrite V in E. clear V. explode y L. unfold_lp. cbn [nth].
  repeat split; lra.
Qed.

Lemma optimal_saturates_both_ends_witness :
  nth 0 x_alt 0 == 3 /\ nth 1 x_alt 0 == 3 /\ nth 13 x_alt 0 == 5 /\
  nth 16 x_alt 0 == 1 /\ nth 15 x_alt 0 == 1.
Proof.
  exact (optimal_saturates_both_ends x_alt x_alt_optimal).
Defined.

